(** * tracers: the probe wrapper template and the libstapsdt capability probe

    Two artifacts are modelled.

    - [probers-codegen/templates/probe_wrapper.c], an Askama template.  The
      template engine compiles a template into a procedure that appends to an
      output buffer, node after node: literal text is written as it stands
      (no whitespace control markers occur in this template), [{{ e }}]
      writes the [Display] form of [e] (the output is C source, so the
      text goes out as it is, with no markup escaping), [{% if %}] and
      [{% for %}] are the
      host language's control flow, and inside a loop [loop.last] tells
      whether the current item is the final one.  The embedding keeps that
      shape: a [Render] is a buffer transformer and the template is a
      sequence of them.
    - [libstapsdt-sys/src/test-libstapsdt.c], a C program of two library
      calls.  The library is an interface the program is linked against; the
      embedding is a small monad that logs every call and every return. *)

From Stdlib Require Import String Ascii List Arith Lia ZArith Bool.
From Stdlib Require Import DecimalString DecimalNat.
Import ListNotations.
Local Open Scope string_scope.

(** ** Template inputs *)

Module Argument.
Record t : Type := mk { c_type : string; name : string }.
End Argument.

Module Probe.
Record t : Type := mk { name : string; args : list Argument.t }.
End Probe.

Module Provider.
(** Modelled from the spec: the provider descriptor is declared outside the
    template; the template only ever reads its disambiguated name. *)
Record t : Type := mk { name : string; name_with_hash : string }.
End Provider.

Module ProbeWrapper.

(** The variables the template refers to: [provider_name_with_hash] and
    [probe]. *)
Record t : Type := mk { provider_name_with_hash : string; probe : Probe.t }.

Definition of_descriptors (pv : Provider.t) (pb : Probe.t) : t :=
  {| provider_name_with_hash := Provider.name_with_hash pv; probe := pb |}.

(** *** Characters of the template that a string literal cannot hold *)

Definition LF : string := String (ascii_of_nat 10) "".
Definition TAB : string := String (ascii_of_nat 9) "".

(** *** The output buffer *)

Definition Render : Type := string -> string.

Definition write_str (s : string) : Render := fun buf => buf ++ s.

Definition skip : Render := fun buf => buf.

Definition seq (a b : Render) : Render := fun buf => b (a buf).

Declare Scope render_scope.
Delimit Scope render_scope with render.
Bind Scope render_scope with Render.
Notation "a ;; b" := (seq a b) (at level 61, right associativity) : render_scope.

(** [{{ e }}] for a string and for a [usize]. *)
Definition display_str (s : string) : Render := write_str s.

Definition usize_to_string (n : nat) : string :=
  NilEmpty.string_of_uint (Nat.to_uint n).

Definition display_usize (n : nat) : Render := write_str (usize_to_string n).

(** The [loop] variable of a [{% for %}] block. *)
Record LoopItem : Type := { index0 : nat; first : bool; last : bool }.

Definition is_nil {A : Type} (l : list A) : bool :=
  match l with [] => true | _ :: _ => false end.

Fixpoint for_loop_from {A : Type} (i : nat) (items : list A)
  (body : A -> LoopItem -> Render) : Render :=
  match items with
  | [] => skip
  | x :: rest =>
      seq (body x {| index0 := i; first := Nat.eqb i 0; last := is_nil rest |})
          (for_loop_from (S i) rest body)
  end.

Definition for_loop {A : Type} (items : list A)
  (body : A -> LoopItem -> Render) : Render :=
  for_loop_from 0 items body.

(** *** The template, node by node *)

(** [{{ arg.c_type }} {{ arg.name }}{% if !loop.last %}, {% endif %}] *)
Definition arg_item (arg : Argument.t) (loop : LoopItem) : Render :=
  (display_str (Argument.c_type arg) ;;
   write_str " " ;;
   display_str (Argument.name arg) ;;
   (if negb (last loop) then write_str ", " else skip))%render.

Definition render_into (self : t) : Render :=
  (write_str "void " ;;
   display_str (provider_name_with_hash self) ;;
   write_str "_" ;;
   display_str (Probe.name (probe self)) ;;
   write_str ("(" ++ LF ++ "    ") ;;
   for_loop (Probe.args (probe self)) arg_item ;;
   write_str (LF ++ ") {" ++ LF ++ "    STAP_PROBE") ;;
   (if (0 <? List.length (Probe.args (probe self)))%nat
    then display_usize (List.length (Probe.args (probe self)))
    else skip) ;;
   write_str ("(" ++ LF ++ TAB) ;;
   display_str (provider_name_with_hash self) ;;
   write_str ("," ++ LF ++ TAB) ;;
   display_str (Probe.name (probe self)) ;;
   write_str (LF ++ TAB) ;;
   for_loop (Probe.args (probe self)) arg_item ;;
   write_str (LF ++ "    );" ++ LF ++ "}"))%render.

(** Rendering starts from an empty buffer. *)
Definition render (self : t) : string := render_into self "".

(** *** Reading generated C text *)

(** The generated text is C source, where layout between tokens carries no
    meaning.  [c_tokens] splits a text into words (letters, digits and
    underscores) and single punctuation characters, dropping the layout; it
    is how a text of the specification, written on one line, is compared
    with the text the template lays out over several. *)

Definition is_space (c : ascii) : bool :=
  let n := nat_of_ascii c in
  ((n =? 32) || (n =? 9) || (n =? 10) || (n =? 11) || (n =? 12)
   || (n =? 13))%nat.

Definition is_word_char (c : ascii) : bool :=
  let n := nat_of_ascii c in
  (((48 <=? n) && (n <=? 57)) || ((65 <=? n) && (n <=? 90))
   || ((97 <=? n) && (n <=? 122)) || (n =? 95))%nat.

Definition flush (word : string) : list string :=
  match word with "" => [] | _ => [word] end.

Fixpoint c_tokens_from (word : string) (s : string) : list string :=
  match s with
  | "" => flush word
  | String c rest =>
      if is_word_char c then c_tokens_from (word ++ String c "") rest
      else if is_space c then flush word ++ c_tokens_from "" rest
      else flush word ++ [String c ""] ++ c_tokens_from "" rest
  end.

Definition c_tokens (s : string) : list string := c_tokens_from "" s.

Fixpoint blank (s : string) : bool :=
  match s with
  | "" => true
  | String c rest => is_space c && blank rest
  end.

Fixpoint count_char (c : ascii) (s : string) : nat :=
  match s with
  | "" => 0
  | String d rest => (if Ascii.eqb c d then 1 else 0) + count_char c rest
  end.

(** What the specification calls a "type name" pair, and a list of them
    separated by [", "]. *)
Definition type_name_pair (arg : Argument.t) : string :=
  Argument.c_type arg ++ " " ++ Argument.name arg.

Definition comma_separated (args : list Argument.t) : string :=
  String.concat ", " (map type_name_pair args).

End ProbeWrapper.

(** ** The capability probe, [test-libstapsdt.c] *)

Module TestLibstapsdt.

(** [SDTProvider_t*]: an address, the null pointer being 0. *)
Definition SDTProvider_ptr : Type := Z.
Definition NULL : SDTProvider_ptr := 0%Z.

(** The two entry points of [<libstapsdt.h>] the program calls.  [S] is
    whatever state the library keeps.  A call that gives [None] never
    returns to its caller: the process dies inside the library. *)
Class Libstapsdt (S : Type) : Type := {
  providerInit : string -> S -> option (SDTProvider_ptr * S);
  providerDestroy : SDTProvider_ptr -> S -> option S
}.

(** What the process does that can be seen from outside: each library call
    when it is made, with its argument, and each return, with its value. *)
Inductive Event : Type :=
| providerInit_called (name : string)
| providerInit_returned (provider : SDTProvider_ptr)
| providerDestroy_called (provider : SDTProvider_ptr)
| providerDestroy_returned.

(** A computation of the process: from a library state to the events it
    produced and, when it ran to its end, a value and the state left. *)
Definition Proc (S A : Type) : Type := S -> list Event * option (A * S).

Definition ret {S A : Type} (a : A) : Proc S A := fun s => ([], Some (a, s)).

Definition bind {S A B : Type} (m : Proc S A) (k : A -> Proc S B) : Proc S B :=
  fun s =>
    match m s with
    | (tr, None) => (tr, None)
    | (tr, Some (a, s1)) => let (tr', r) := k a s1 in ((tr ++ tr')%list, r)
    end.

Declare Scope proc_scope.
Delimit Scope proc_scope with proc.
Notation "x <- m ;; k" := (bind m (fun x => k))
  (at level 61, m at next level, right associativity) : proc_scope.
Notation "m ;; k" := (bind m (fun _ => k))
  (at level 61, right associativity) : proc_scope.

Definition call_providerInit {S : Type} `{Libstapsdt S} (name : string)
  : Proc S SDTProvider_ptr :=
  fun s =>
    match providerInit name s with
    | Some (p, s1) =>
        ([providerInit_called name; providerInit_returned p], Some (p, s1))
    | None => ([providerInit_called name], None)
    end.

Definition call_providerDestroy {S : Type} `{Libstapsdt S}
  (provider : SDTProvider_ptr) : Proc S unit :=
  fun s =>
    match providerDestroy provider s with
    | Some s1 =>
        ([providerDestroy_called provider; providerDestroy_returned],
         Some (tt, s1))
    | None => ([providerDestroy_called provider], None)
    end.

(** [int main(int arc, char** argv)].  Control reaches the closing brace of
    [main] without a [return]; C99 5.1.2.2.3 makes that a return of 0. *)
Definition main {S : Type} `{Libstapsdt S} (arc : Z) (argv : list string)
  : Proc S Z :=
  (provider <- call_providerInit "foo" ;;
   call_providerDestroy provider ;;
   ret 0%Z)%proc.

Definition trace {S A : Type} (r : list Event * option (A * S)) : list Event :=
  fst r.

Definition exit_status {S : Type} (r : list Event * option (Z * S))
  : option Z :=
  match snd r with Some (code, _) => Some code | None => None end.

(** An event with the handle it carries blanked out. *)
Definition forget_handle (e : Event) : Event :=
  match e with
  | providerInit_returned _ => providerInit_returned NULL
  | providerDestroy_called _ => providerDestroy_called NULL
  | _ => e
  end.

(** Two libraries to run the program against.  The first never manages to
    create a provider and tolerates a null handle.  The second hands out
    addresses, keeps the list of live handles, and dies when asked to
    destroy a handle that is not live. *)
Definition exhausted_lib : Libstapsdt unit :=
  {| providerInit := fun _ s => Some (NULL, s);
     providerDestroy := fun _ s => Some s |}.

Definition fresh_handle (live : list Z) : Z :=
  (4096 + 64 * Z.of_nat (List.length live))%Z.

Definition remove_handle (p : Z) (live : list Z) : list Z :=
  filter (fun q => negb (Z.eqb p q)) live.

Definition strict_lib : Libstapsdt (list Z) :=
  {| providerInit := fun _ live =>
       let p := fresh_handle live in Some (p, p :: live);
     providerDestroy := fun p live =>
       if existsb (Z.eqb p) live then Some (remove_handle p live) else None |}.

(** A library in which creation fails with a null handle and destruction
    of a null handle dies. *)
Definition crashing_lib : Libstapsdt unit :=
  {| providerInit := fun _ s => Some (NULL, s);
     providerDestroy := fun p s => if Z.eqb p NULL then None else Some s |}.

End TestLibstapsdt.

Import ProbeWrapper.

Definition acme : Provider.t := Provider.mk "acme" "acme_ab12".
Definition enter_probe : Probe.t := Probe.mk "enter" [].
Definition write_probe : Probe.t :=
  Probe.mk "write" [Argument.mk "int" "fd"; Argument.mk "const char*" "buf"].

(** The numeric suffix of the macro name. *)
Definition macro_suffix (args : list Argument.t) : string :=
  if (0 <? List.length args)%nat then usize_to_string (List.length args) else "".

(** The whole text of the template around its four variable parts. *)
Definition layout (nh pn params suffix : string) : string :=
  "void " ++ nh ++ "_" ++ pn ++ "(" ++ LF ++ "    " ++ params ++ LF ++ ") {"
  ++ LF ++ "    STAP_PROBE" ++ suffix ++ "(" ++ LF ++ TAB ++ nh ++ "," ++ LF
  ++ TAB ++ pn ++ LF ++ TAB ++ params ++ LF ++ "    );" ++ LF ++ "}".

(** Reading a decimal suffix back. *)
Definition usize_of_string (s : string) : option nat :=
  option_map Nat.of_uint (NilEmpty.uint_of_string s).




(** Texts in which a given character does not occur, and descriptors all of
    whose texts are such. *)
Definition free_of (c : ascii) (s : string) : bool :=
  (count_char c s =? 0)%nat.

Definition argument_free_of (c : ascii) (a : Argument.t) : bool :=
  free_of c (Argument.c_type a) && free_of c (Argument.name a).

Definition descriptors_free_of (c : ascii) (self : ProbeWrapper.t) : bool :=
  free_of c (provider_name_with_hash self)
  && free_of c (Probe.name (probe self))
  && forallb (argument_free_of c) (Probe.args (probe self)).

Definition LF_char : ascii := ascii_of_nat 10.

(** The two parts of the rendered text: lines 1 to 3 of the template up to
    the closing parenthesis, and lines 4 to 8 up to the closing
    parenthesis. *)
Definition signature_text (self : ProbeWrapper.t) : string :=
  provider_name_with_hash self ++ "_" ++ Probe.name (probe self) ++ "("
  ++ LF ++ "    " ++ comma_separated (Probe.args (probe self)) ++ LF ++ ")".

Definition invocation_text (self : ProbeWrapper.t) : string :=
  "STAP_PROBE" ++ macro_suffix (Probe.args (probe self)) ++ "(" ++ LF ++ TAB
  ++ provider_name_with_hash self ++ "," ++ LF ++ TAB
  ++ Probe.name (probe self) ++ LF ++ TAB
  ++ comma_separated (Probe.args (probe self)) ++ LF ++ "    )".

(** Calls in a trace, by callee. *)
Definition is_init_call (e : TestLibstapsdt.Event) : bool :=
  match e with TestLibstapsdt.providerInit_called _ => true | _ => false end.

Definition is_destroy_call (e : TestLibstapsdt.Event) : bool :=
  match e with TestLibstapsdt.providerDestroy_called _ => true | _ => false end.

(** A library whose [providerInit] never returns. *)
Definition stuck_lib : TestLibstapsdt.Libstapsdt unit :=
  {| TestLibstapsdt.providerInit := fun _ _ => None;
     TestLibstapsdt.providerDestroy := fun _ s => Some s |}.


Import TestLibstapsdt.

(** * Properties of the wrapper template *)

Lemma append_assoc (a b c : string) : (a ++ b) ++ c = a ++ (b ++ c).
Proof. induction a as [|ch a IH]; simpl; [reflexivity | now rewrite IH]. Qed.

Lemma append_nil_r (a : string) : a ++ "" = a.
Proof. induction a as [|ch a IH]; simpl; [reflexivity | now rewrite IH]. Qed.

(** The [{% for %}] block over the arguments appends the "type name" pairs
    joined by [", "], wherever the loop counter starts. *)
Lemma comma_separated_nil : comma_separated [] = "".
Proof. reflexivity. Qed.

Lemma comma_separated_one (a : Argument.t) :
  comma_separated [a] = type_name_pair a.
Proof. reflexivity. Qed.

Lemma comma_separated_cons (a b : Argument.t) (rest : list Argument.t) :
  comma_separated (a :: b :: rest) =
  type_name_pair a ++ ", " ++ comma_separated (b :: rest).
Proof. reflexivity. Qed.

Lemma arg_item_appends (a : Argument.t) (loop : LoopItem) (buf : string) :
  arg_item a loop buf =
  buf ++ type_name_pair a ++ (if last loop then "" else ", ").
Proof.
  unfold arg_item, seq, display_str, write_str, skip, type_name_pair.
  destruct (last loop); cbn [negb]; rewrite ?append_assoc, ?append_nil_r;
    reflexivity.
Qed.

Lemma for_loop_from_arg_item (items : list Argument.t) :
  forall (i : nat) (buf : string),
    for_loop_from i items arg_item buf = buf ++ comma_separated items.
Proof.
  induction items as [|a rest IH]; intros i buf.
  - cbn [for_loop_from]. unfold skip.
    now rewrite comma_separated_nil, append_nil_r.
  - cbn [for_loop_from]. unfold seq. rewrite IH, arg_item_appends.
    cbn [last]. destruct rest as [|b rest]; cbn [is_nil].
    + now rewrite comma_separated_nil, comma_separated_one, !append_nil_r.
    + now rewrite comma_separated_cons, !append_assoc.
Qed.

Lemma render_into_layout (self : ProbeWrapper.t) (buf : string) :
  render_into self buf =
  buf ++ layout (provider_name_with_hash self) (Probe.name (probe self))
           (comma_separated (Probe.args (probe self)))
           (macro_suffix (Probe.args (probe self))).
Proof.
  unfold render_into, seq, for_loop, macro_suffix.
  rewrite !for_loop_from_arg_item.
  destruct (0 <? List.length (Probe.args (probe self)))%nat;
    unfold display_usize, display_str, write_str, skip, layout;
    rewrite ?append_assoc; reflexivity.
Qed.

Lemma render_layout (self : ProbeWrapper.t) :
  render self =
  layout (provider_name_with_hash self) (Probe.name (probe self))
    (comma_separated (Probe.args (probe self)))
    (macro_suffix (Probe.args (probe self))).
Proof. unfold render. now rewrite render_into_layout. Qed.

Lemma usize_roundtrip (n : nat) : usize_of_string (usize_to_string n) = Some n.
Proof.
  unfold usize_of_string, usize_to_string.
  rewrite NilEmpty.usu. cbn [option_map]. now rewrite Unsigned.of_to.
Qed.

Lemma macro_suffix_nil : macro_suffix [] = "".
Proof. reflexivity. Qed.

Lemma macro_suffix_pos (args : list Argument.t) :
  0 < List.length args ->
  macro_suffix args = usize_to_string (List.length args).
Proof.
  intros H. unfold macro_suffix.
  destruct (Nat.ltb_spec 0 (List.length args)); [reflexivity | lia].
Qed.

Lemma is_nil_app_cons {A : Type} (xs : list A) (a : A) (ys : list A) :
  is_nil (xs ++ a :: ys)%list = false.
Proof. destruct xs; reflexivity. Qed.

Lemma comma_separated_step (x : Argument.t) (l : list Argument.t) :
  comma_separated (x :: l) =
  type_name_pair x ++ (if is_nil l then "" else ", " ++ comma_separated l).
Proof.
  destruct l as [|y l]; cbn [is_nil].
  - now rewrite comma_separated_one, append_nil_r.
  - apply comma_separated_cons.
Qed.

Lemma comma_separated_snoc (xs : list Argument.t) (a : Argument.t) :
  comma_separated (xs ++ [a]) =
  comma_separated xs ++ (if is_nil xs then "" else ", ") ++ type_name_pair a.
Proof.
  induction xs as [|x xs IH].
  - reflexivity.
  - cbn [List.app is_nil].
    rewrite !comma_separated_step, is_nil_app_cons, IH.
    destruct xs as [|y xs]; cbn [is_nil].
    + now rewrite comma_separated_nil, !append_nil_r.
    + now rewrite !append_assoc.
Qed.

Lemma comma_separated_split (xs : list Argument.t) (a b : Argument.t)
  (ys : list Argument.t) :
  comma_separated (xs ++ a :: b :: ys) =
  comma_separated (xs ++ [a]) ++ ", " ++ comma_separated (b :: ys).
Proof.
  induction xs as [|x xs IH].
  - reflexivity.
  - cbn [List.app].
    rewrite (comma_separated_step x (xs ++ a :: b :: ys)).
    rewrite (comma_separated_step x (xs ++ [a])).
    rewrite !is_nil_app_cons, IH. now rewrite !append_assoc.
Qed.

Lemma count_char_app (c : ascii) (a b : string) :
  count_char c (a ++ b) = count_char c a + count_char c b.
Proof.
  induction a as [|d a IH]; simpl; [reflexivity | rewrite IH; lia].
Qed.






(** C1.  Probe [write] with arguments [int fd] and [const char* buf] under
    provider [acme_ab12]: what the template renders.  The signature is
    [acme_ab12_write(int fd, const char* buf)] and the macro is
    [STAP_PROBE2], but the macro's argument text is
    [(acme_ab12, write int fd, const char* buf)]: the template has no
    comma after the probe name, so the rendered text is not, even up to
    layout, the text with [(acme_ab12, write, int fd, const char* buf)]. *)
Theorem write_scenario_has_no_comma_after_probe_name :
  render (of_descriptors acme write_probe) =
    "void acme_ab12_write(" ++ LF ++ "    int fd, const char* buf" ++ LF
    ++ ") {" ++ LF ++ "    STAP_PROBE2(" ++ LF ++ TAB ++ "acme_ab12," ++ LF
    ++ TAB ++ "write" ++ LF ++ TAB ++ "int fd, const char* buf" ++ LF
    ++ "    );" ++ LF ++ "}"
  /\ c_tokens (render (of_descriptors acme write_probe)) =
     c_tokens ("void acme_ab12_write(int fd, const char* buf) { "
               ++ "STAP_PROBE2(acme_ab12, write int fd, const char* buf); }")
  /\ c_tokens (render (of_descriptors acme write_probe)) <>
     c_tokens ("void acme_ab12_write(int fd, const char* buf) { "
               ++ "STAP_PROBE2(acme_ab12, write, int fd, const char* buf); }").
Proof.
  split; [vm_compute; reflexivity | split].
  - vm_compute. reflexivity.
  - vm_compute. discriminate.
Qed.

(** C2.  With N > 0 arguments the macro name is [STAP_PROBE] followed by
    the decimal form of N and then the opening parenthesis, and the
    parameter list of the signature is the N "type name" pairs joined by
    [", "], closed right after the last pair. *)
Theorem nonempty_args_suffix_and_signature (self : ProbeWrapper.t) :
  0 < List.length (Probe.args (probe self)) ->
  (exists after : string,
     render self =
       "void " ++ provider_name_with_hash self ++ "_"
       ++ Probe.name (probe self) ++ "(" ++ LF ++ "    "
       ++ String.concat ", " (map type_name_pair (Probe.args (probe self)))
       ++ LF ++ ") {" ++ LF ++ "    STAP_PROBE"
       ++ usize_to_string (List.length (Probe.args (probe self)))
       ++ "(" ++ after)
  /\ List.length (map type_name_pair (Probe.args (probe self))) =
     List.length (Probe.args (probe self))
  /\ usize_of_string (usize_to_string (List.length (Probe.args (probe self))))
     = Some (List.length (Probe.args (probe self))).
Proof.
  intros Hpos. split; [| split].
  - rewrite render_layout, (macro_suffix_pos _ Hpos). unfold layout.
    eexists. reflexivity.
  - apply length_map.
  - apply usize_roundtrip.
Qed.

Lemma nonempty_args_suffix_and_signature_witness :
  0 < List.length (Probe.args (probe (of_descriptors acme write_probe)))
  /\ exists after : string,
       render (of_descriptors acme write_probe) =
         "void acme_ab12_write(" ++ LF ++ "    int fd, const char* buf" ++ LF
         ++ ") {" ++ LF ++ "    STAP_PROBE2(" ++ after.
Proof.
  assert (Hpos : 0 < List.length
                       (Probe.args (probe (of_descriptors acme write_probe))))
    by (simpl; lia).
  split; [exact Hpos |].
  destruct (nonempty_args_suffix_and_signature
              (of_descriptors acme write_probe) Hpos) as [[after H] _].
  exists after. exact H.
Defined.

(** C3.  With no arguments the macro is invoked as [STAP_PROBE(], with no
    suffix, and the parentheses of the signature hold layout only: no
    parameter and no separator.  The macro's argument text likewise ends
    with the probe name followed by layout only. *)
Theorem empty_args_unsuffixed_and_empty_parentheses (nh pn : string) :
  exists inside_parentheses after_probe_name : string,
    blank inside_parentheses = true
    /\ blank after_probe_name = true
    /\ render (ProbeWrapper.mk nh (Probe.mk pn [])) =
         "void " ++ nh ++ "_" ++ pn ++ "(" ++ inside_parentheses ++ ") {"
         ++ LF ++ "    STAP_PROBE(" ++ LF ++ TAB ++ nh ++ "," ++ LF ++ TAB
         ++ pn ++ after_probe_name ++ ");" ++ LF ++ "}".
Proof.
  exists (LF ++ "    " ++ LF), (LF ++ TAB ++ LF ++ "    ").
  split; [reflexivity | split; [reflexivity |]].
  rewrite render_layout. cbn [probe provider_name_with_hash Probe.name Probe.args].
  rewrite comma_separated_nil, macro_suffix_nil. unfold layout.
  cbn [append]. rewrite !append_assoc. reflexivity.
Qed.

(** C4.  In the signature and in the macro invocation alike the arguments
    are rendered in the order of the descriptor: both places hold the same
    text, in which any two consecutive arguments have exactly [", "]
    between them and which ends with the last argument's pair. *)
Theorem arguments_in_order_comma_between (self : ProbeWrapper.t) :
  render self =
    "void " ++ provider_name_with_hash self ++ "_" ++ Probe.name (probe self)
    ++ "(" ++ LF ++ "    " ++ comma_separated (Probe.args (probe self))
    ++ LF ++ ") {" ++ LF ++ "    STAP_PROBE"
    ++ macro_suffix (Probe.args (probe self)) ++ "(" ++ LF ++ TAB
    ++ provider_name_with_hash self ++ "," ++ LF ++ TAB
    ++ Probe.name (probe self) ++ LF ++ TAB
    ++ comma_separated (Probe.args (probe self)) ++ LF ++ "    );" ++ LF ++ "}"
  /\ (forall (xs : list Argument.t) (a b : Argument.t) (ys : list Argument.t),
        comma_separated (xs ++ a :: b :: ys) =
        comma_separated (xs ++ [a]) ++ ", " ++ comma_separated (b :: ys))
  /\ (forall (xs : list Argument.t) (a : Argument.t),
        comma_separated (xs ++ [a]) =
        comma_separated xs ++ (if is_nil xs then "" else ", ")
        ++ type_name_pair a)
  /\ comma_separated [] = "".
Proof.
  split; [apply render_layout | split; [| split]].
  - apply comma_separated_split.
  - apply comma_separated_snoc.
  - reflexivity.
Qed.

(** C5.  Provider [acme_ab12], probe [enter], no arguments: the function is
    named [acme_ab12_enter], the provider's disambiguated name and the
    probe's name joined, and the text is, up to layout,
    [void acme_ab12_enter() { STAP_PROBE(acme_ab12, enter); }]. *)
Theorem enter_scenario :
  render (of_descriptors acme enter_probe) =
    "void acme_ab12_enter(" ++ LF ++ "    " ++ LF ++ ") {" ++ LF
    ++ "    STAP_PROBE(" ++ LF ++ TAB ++ "acme_ab12," ++ LF ++ TAB ++ "enter"
    ++ LF ++ TAB ++ LF ++ "    );" ++ LF ++ "}"
  /\ c_tokens (render (of_descriptors acme enter_probe)) =
     c_tokens "void acme_ab12_enter() { STAP_PROBE(acme_ab12, enter); }"
  /\ nth_error (c_tokens (render (of_descriptors acme enter_probe))) 1 =
     Some (Provider.name_with_hash acme ++ "_" ++ Probe.name enter_probe).
Proof. split; [| split]; vm_compute; reflexivity. Qed.

(** C6.  Rendering reads nothing but its two descriptors: whatever the
    buffer holds, the text appended is [render] of the descriptors, so a
    second rendering appends the very same text again. *)
Theorem rendering_deterministic (pv : Provider.t) (pb : Probe.t) :
  (forall buf : string,
     render_into (of_descriptors pv pb) buf =
     buf ++ render (of_descriptors pv pb))
  /\ render_into (of_descriptors pv pb)
       (render_into (of_descriptors pv pb) "") =
     render (of_descriptors pv pb) ++ render (of_descriptors pv pb).
Proof.
  assert (H : forall buf : string,
             render_into (of_descriptors pv pb) buf =
             buf ++ render (of_descriptors pv pb)).
  { intros buf. now rewrite render_layout, render_into_layout. }
  split; [exact H |]. rewrite H. reflexivity.
Qed.




(** * Properties of the capability probe *)

(** Every run of [main], against any library and from any library state. *)
Lemma main_run {S : Type} `{Libstapsdt S} (arc : Z) (argv : list string)
  (s : S) :
  main arc argv s =
  match providerInit "foo" s with
  | None => ([providerInit_called "foo"], None)
  | Some (p, s1) =>
      match providerDestroy p s1 with
      | None =>
          ([providerInit_called "foo"; providerInit_returned p;
            providerDestroy_called p], None)
      | Some s2 =>
          ([providerInit_called "foo"; providerInit_returned p;
            providerDestroy_called p; providerDestroy_returned],
           Some (0%Z, s2))
      end
  end.
Proof.
  unfold main, bind, call_providerInit, call_providerDestroy, ret.
  destruct (providerInit "foo" s) as [[p s1]|]; [| reflexivity].
  destruct (providerDestroy p s1); reflexivity.
Qed.

(** C7.  The first thing any run does is call [providerInit].  A run that
    reaches the end of [main] has made exactly two calls, [providerInit]
    and then [providerDestroy] on the handle obtained, each of which
    returned, and its exit status is 0; and the run does reach the end
    whenever the two calls return. *)
Theorem main_init_then_destroy_then_exit_0 {S : Type} `{Libstapsdt S}
  (arc : Z) (argv : list string) (s : S) :
  (exists rest : list Event,
     trace (main arc argv s) = providerInit_called "foo" :: rest)
  /\ (forall (code : Z) (s' : S),
        snd (main arc argv s) = Some (code, s') ->
        code = 0%Z
        /\ exit_status (main arc argv s) = Some 0%Z
        /\ exists (p : SDTProvider_ptr) (s1 : S),
             providerInit "foo" s = Some (p, s1)
             /\ providerDestroy p s1 = Some s'
             /\ trace (main arc argv s) =
                [providerInit_called "foo"; providerInit_returned p;
                 providerDestroy_called p; providerDestroy_returned])
  /\ (forall (p : SDTProvider_ptr) (s1 s2 : S),
        providerInit "foo" s = Some (p, s1) ->
        providerDestroy p s1 = Some s2 ->
        snd (main arc argv s) = Some (0%Z, s2)).
Proof.
  rewrite main_run. split; [| split].
  - destruct (providerInit "foo" s) as [[p s1]|]; [| eexists; reflexivity].
    destruct (providerDestroy p s1); eexists; reflexivity.
  - intros code s' Hdone.
    destruct (providerInit "foo" s) as [[p s1]|]; [| discriminate].
    destruct (providerDestroy p s1) as [s2|] eqn:Hd; [| discriminate].
    cbn [snd] in Hdone. injection Hdone as <- <-.
    split; [reflexivity | split; [reflexivity |]].
    exists p, s1. repeat split. exact Hd.
  - intros p s1 s2 Hi Hd. rewrite Hi, Hd. reflexivity.
Qed.

Lemma main_init_then_destroy_then_exit_0_witness :
  snd (@main _ strict_lib 1%Z ["test-libstapsdt"] []) = Some (0%Z, [])
  /\ exit_status (@main _ strict_lib 1%Z ["test-libstapsdt"] []) = Some 0%Z.
Proof.
  assert (Hdone : snd (@main _ strict_lib 1%Z ["test-libstapsdt"] [])
                  = Some (0%Z, [])) by reflexivity.
  split; [exact Hdone |].
  destruct (@main_init_then_destroy_then_exit_0 _ strict_lib 1%Z
              ["test-libstapsdt"] []) as [_ [Hend _]].
  destruct (Hend 0%Z [] Hdone) as [_ [Hexit _]]. exact Hexit.
Defined.

(** C8.  What [providerInit] returned decides nothing.  Take any two runs,
    against any two libraries, in which [providerInit] returned, whatever
    the two handles are (null or not): with the handles blanked out, both
    runs begin with the same three events, the third being the call of
    [providerDestroy]; and when [providerDestroy] returns in both, the two
    runs make the same calls and both end with exit status 0. *)
Theorem init_result_never_tested {SA SB : Type}
  (libA : Libstapsdt SA) (libB : Libstapsdt SB)
  (arcA arcB : Z) (argvA argvB : list string) (sA : SA) (sB : SB)
  (pA pB : SDTProvider_ptr) (sA1 : SA) (sB1 : SB) :
  @providerInit _ libA "foo" sA = Some (pA, sA1) ->
  @providerInit _ libB "foo" sB = Some (pB, sB1) ->
  firstn 3 (map forget_handle (trace (@main _ libA arcA argvA sA))) =
    [providerInit_called "foo"; providerInit_returned NULL;
     providerDestroy_called NULL]
  /\ firstn 3 (map forget_handle (trace (@main _ libB arcB argvB sB))) =
     firstn 3 (map forget_handle (trace (@main _ libA arcA argvA sA)))
  /\ (forall (sA2 : SA) (sB2 : SB),
        @providerDestroy _ libA pA sA1 = Some sA2 ->
        @providerDestroy _ libB pB sB1 = Some sB2 ->
        map forget_handle (trace (@main _ libA arcA argvA sA)) =
        map forget_handle (trace (@main _ libB arcB argvB sB))
        /\ exit_status (@main _ libA arcA argvA sA) = Some 0%Z
        /\ exit_status (@main _ libB arcB argvB sB) = Some 0%Z).
Proof.
  intros HA HB. rewrite !main_run, HA, HB. split; [| split].
  - destruct (@providerDestroy _ libA pA sA1); reflexivity.
  - destruct (@providerDestroy _ libA pA sA1);
      destruct (@providerDestroy _ libB pB sB1); reflexivity.
  - intros sA2 sB2 HdA HdB. rewrite HdA, HdB. repeat split.
Qed.

Lemma init_result_never_tested_witness :
  @providerInit _ exhausted_lib "foo" tt = Some (NULL, tt)
  /\ @providerInit _ strict_lib "foo" [] = Some (4096%Z, [4096%Z])
  /\ exit_status (@main _ exhausted_lib 1%Z ["a"] tt) = Some 0%Z
  /\ exit_status (@main _ strict_lib 3%Z ["a"; "b"; "c"] []) = Some 0%Z.
Proof.
  assert (HA : @providerInit _ exhausted_lib "foo" tt = Some (NULL, tt))
    by reflexivity.
  assert (HB : @providerInit _ strict_lib "foo" [] = Some (4096%Z, [4096%Z]))
    by reflexivity.
  split; [exact HA | split; [exact HB |]].
  destruct (init_result_never_tested exhausted_lib strict_lib
              1%Z 3%Z ["a"] ["a"; "b"; "c"] tt [] NULL 4096%Z tt [4096%Z]
              HA HB) as [_ [_ Hboth]].
  destruct (Hboth tt [] eq_refl eq_refl) as [_ Hexit]. exact Hexit.
Defined.

(** C9.  [main] does not look at its arguments; the only name it ever
    passes to [providerInit] is ["foo"]; and whenever [providerInit]
    returns a handle, null or not, the next thing the run does is call
    [providerDestroy] on that very handle, the only handle it is ever
    called on. *)
Theorem main_fixed_name_and_same_handle {S : Type} `{Libstapsdt S}
  (arc arc' : Z) (argv argv' : list string) (s : S) :
  main arc argv s = main arc' argv' s
  /\ (exists rest : list Event,
        trace (main arc argv s) = providerInit_called "foo" :: rest)
  /\ (forall name : string,
        In (providerInit_called name) (trace (main arc argv s)) ->
        name = "foo")
  /\ (forall (p : SDTProvider_ptr) (s1 : S),
        providerInit "foo" s = Some (p, s1) ->
        exists rest : list Event,
          trace (main arc argv s) =
          [providerInit_called "foo"; providerInit_returned p;
           providerDestroy_called p] ++ rest)%list
  /\ (forall q : SDTProvider_ptr,
        In (providerDestroy_called q) (trace (main arc argv s)) ->
        exists s1 : S, providerInit "foo" s = Some (q, s1)).
Proof.
  split; [now rewrite !main_run |]. rewrite main_run.
  destruct (providerInit "foo" s) as [[p s1]|] eqn:Hi;
    [destruct (providerDestroy p s1) as [s2|] eqn:Hd |];
    cbn [trace fst]; (split; [eexists; reflexivity |]);
    (split; [intros name Hin; cbn [In] in Hin;
             repeat (destruct Hin as [Hin|Hin]; try discriminate Hin);
             [injection Hin as <-; reflexivity | contradiction] |]);
    split.
  - intros p' s1' Heq. injection Heq as <- <-. eexists. reflexivity.
  - intros q Hin. cbn [In] in Hin.
    repeat (destruct Hin as [Hin|Hin]; try discriminate Hin);
      [injection Hin as <-; exists s1; reflexivity | contradiction].
  - intros p' s1' Heq. injection Heq as <- <-. exists []. reflexivity.
  - intros q Hin. cbn [In] in Hin.
    repeat (destruct Hin as [Hin|Hin]; try discriminate Hin);
      [injection Hin as <-; exists s1; reflexivity | contradiction].
  - intros p' s1' Heq. discriminate Heq.
  - intros q Hin. cbn [In] in Hin.
    repeat (destruct Hin as [Hin|Hin]; try discriminate Hin); contradiction.
Qed.

Lemma main_fixed_name_and_same_handle_witness :
  @providerInit _ crashing_lib "foo" tt = Some (NULL, tt)
  /\ exists rest : list Event,
       trace (@main _ crashing_lib 1%Z ["a"] tt) =
       ([providerInit_called "foo"; providerInit_returned NULL;
         providerDestroy_called NULL] ++ rest)%list.
Proof.
  assert (Hi : @providerInit _ crashing_lib "foo" tt = Some (NULL, tt))
    by reflexivity.
  split; [exact Hi |].
  destruct (@main_fixed_name_and_same_handle _ crashing_lib 1%Z 2%Z
              ["a"] ["a"; "b"] tt) as [_ [_ [_ [Hnext _]]]].
  exact (Hnext NULL tt Hi).
Defined.

(** * Further properties of the wrapper template *)

Lemma render_parts (self : ProbeWrapper.t) :
  render self =
  "void " ++ signature_text self ++ " {" ++ LF ++ "    "
  ++ invocation_text self ++ ";" ++ LF ++ "}".
Proof.
  rewrite render_layout. unfold layout, signature_text, invocation_text.
  rewrite !append_assoc. reflexivity.
Qed.

Lemma free_of_count (c : ascii) (s : string) :
  free_of c s = true -> count_char c s = 0.
Proof. unfold free_of. intros H. now apply Nat.eqb_eq in H. Qed.

Lemma descriptors_free_of_inv (c : ascii) (self : ProbeWrapper.t) :
  descriptors_free_of c self = true ->
  count_char c (provider_name_with_hash self) = 0
  /\ count_char c (Probe.name (probe self)) = 0
  /\ forallb (argument_free_of c) (Probe.args (probe self)) = true.
Proof.
  unfold descriptors_free_of. intros H.
  apply andb_prop in H. destruct H as [H Hargs].
  apply andb_prop in H. destruct H as [Hnh Hpn].
  auto using free_of_count.
Qed.

Lemma count_comma_decimal (d : Decimal.uint) :
  count_char "," (NilEmpty.string_of_uint d) = 0.
Proof. induction d; simpl; try reflexivity; exact IHd. Qed.

Lemma count_LF_decimal (d : Decimal.uint) :
  count_char LF_char (NilEmpty.string_of_uint d) = 0.
Proof. induction d; simpl; try reflexivity; exact IHd. Qed.

Lemma count_comma_macro_suffix (args : list Argument.t) :
  count_char "," (macro_suffix args) = 0.
Proof.
  unfold macro_suffix.
  destruct (0 <? List.length args)%nat;
    [apply count_comma_decimal | reflexivity].
Qed.

Lemma count_LF_macro_suffix (args : list Argument.t) :
  count_char LF_char (macro_suffix args) = 0.
Proof.
  unfold macro_suffix.
  destruct (0 <? List.length args)%nat; [apply count_LF_decimal | reflexivity].
Qed.

Lemma count_type_name_pair (c : ascii) (a : Argument.t) :
  argument_free_of c a = true ->
  count_char c (type_name_pair a) = count_char c " ".
Proof.
  unfold argument_free_of, type_name_pair. intros H.
  apply andb_prop in H. destruct H as [Ht Hn].
  apply free_of_count in Ht, Hn. rewrite !count_char_app. lia.
Qed.

Lemma count_comma_comma_separated (args : list Argument.t) :
  forallb (argument_free_of ",") args = true ->
  count_char "," (comma_separated args) = List.length args - 1.
Proof.
  induction args as [|a rest IH]; intros H.
  - reflexivity.
  - cbn [forallb] in H. apply andb_prop in H. destruct H as [Ha Hrest].
    specialize (IH Hrest).
    rewrite comma_separated_step, count_char_app, (count_type_name_pair _ _ Ha).
    destruct rest as [|b rest]; cbn [is_nil]; [reflexivity |].
    rewrite count_char_app, IH. cbn [List.length]. simpl. lia.
Qed.

Lemma count_LF_comma_separated (args : list Argument.t) :
  forallb (argument_free_of LF_char) args = true ->
  count_char LF_char (comma_separated args) = 0.
Proof.
  induction args as [|a rest IH]; intros H.
  - reflexivity.
  - cbn [forallb] in H. apply andb_prop in H. destruct H as [Ha Hrest].
    specialize (IH Hrest).
    rewrite comma_separated_step, count_char_app, (count_type_name_pair _ _ Ha).
    destruct rest as [|b rest]; cbn [is_nil]; [reflexivity |].
    rewrite count_char_app, IH. reflexivity.
Qed.

Lemma usize_to_string_inj (n m : nat) :
  usize_to_string n = usize_to_string m -> n = m.
Proof.
  intros H. apply (f_equal usize_of_string) in H.
  rewrite !usize_roundtrip in H. now injection H.
Qed.

Lemma usize_to_string_nonempty (n : nat) : usize_to_string n <> "".
Proof.
  intros H. assert (Hn := f_equal usize_of_string H).
  rewrite usize_roundtrip in Hn. cbn in Hn. injection Hn as ->.
  vm_compute in H. discriminate H.
Qed.

Lemma string_length_append (a b : string) :
  String.length (a ++ b) = String.length a + String.length b.
Proof. induction a as [|c a IH]; simpl; [reflexivity | now rewrite IH]. Qed.

(** X1.  Commas of the generated text, for descriptors whose texts hold no
    comma: with N arguments the signature has N - 1 of them and the macro
    invocation has max 1 N, the one after the provider name and the N - 1
    between arguments.  For N > 0 the invocation so passes N + 1
    comma-separated items to the N-suffixed macro. *)
Theorem comma_counts (self : ProbeWrapper.t) :
  render self =
    "void " ++ signature_text self ++ " {" ++ LF ++ "    "
    ++ invocation_text self ++ ";" ++ LF ++ "}"
  /\ (descriptors_free_of "," self = true ->
      count_char "," (signature_text self) =
        List.length (Probe.args (probe self)) - 1
      /\ count_char "," (invocation_text self) =
        Nat.max 1 (List.length (Probe.args (probe self)))).
Proof.
  split; [apply render_parts |]. intros H.
  apply descriptors_free_of_inv in H. destruct H as [Hnh [Hpn Hargs]].
  apply count_comma_comma_separated in Hargs.
  pose proof (count_comma_macro_suffix (Probe.args (probe self))) as Hsfx.
  unfold signature_text, invocation_text, LF, TAB.
  rewrite !count_char_app, Hnh, Hpn, Hargs, Hsfx.
  destruct (List.length (Probe.args (probe self))); simpl; lia.
Qed.

Lemma comma_counts_witness :
  descriptors_free_of "," (of_descriptors acme write_probe) = true
  /\ count_char "," (signature_text (of_descriptors acme write_probe)) = 1
  /\ count_char "," (invocation_text (of_descriptors acme write_probe)) = 2.
Proof.
  split; [reflexivity |].
  apply (proj2 (comma_counts (of_descriptors acme write_probe))).
  reflexivity.
Defined.

(** X2.  The template reads an argument only through its "type name"
    text: two argument lists with the same pair texts render the same
    wrapper, wherever the boundary between type and name lies. *)
Theorem render_depends_on_pair_texts (nh pn : string)
  (args1 args2 : list Argument.t) :
  map type_name_pair args1 = map type_name_pair args2 ->
  render (ProbeWrapper.mk nh (Probe.mk pn args1)) =
  render (ProbeWrapper.mk nh (Probe.mk pn args2)).
Proof.
  intros H. rewrite !render_layout.
  cbn [probe provider_name_with_hash Probe.name Probe.args].
  assert (Hlen : List.length args1 = List.length args2).
  { rewrite <- (length_map type_name_pair args1), H. apply length_map. }
  unfold comma_separated, macro_suffix. now rewrite H, Hlen.
Qed.

Lemma render_depends_on_pair_texts_witness :
  Argument.mk "const char*" "buf" <> Argument.mk "const" "char* buf"
  /\ render (ProbeWrapper.mk "acme_ab12"
               (Probe.mk "write" [Argument.mk "const char*" "buf"])) =
     render (ProbeWrapper.mk "acme_ab12"
               (Probe.mk "write" [Argument.mk "const" "char* buf"])).
Proof.
  split; [discriminate |].
  apply (render_depends_on_pair_texts "acme_ab12" "write"
           [Argument.mk "const char*" "buf"]
           [Argument.mk "const" "char* buf"]).
  reflexivity.
Defined.

(** X3.  Whatever the number of arguments, the generated text spans nine
    lines: when no text of the descriptors holds a line feed the output has
    exactly eight, all the arguments sharing one line in the signature and
    one in the invocation. *)
Theorem render_has_eight_line_feeds (self : ProbeWrapper.t) :
  descriptors_free_of LF_char self = true ->
  count_char LF_char (render self) = 8.
Proof.
  intros H. apply descriptors_free_of_inv in H.
  destruct H as [Hnh [Hpn Hargs]].
  apply count_LF_comma_separated in Hargs.
  pose proof (count_LF_macro_suffix (Probe.args (probe self))) as Hsfx.
  rewrite render_layout. unfold layout, LF, TAB.
  rewrite !count_char_app, Hnh, Hpn, Hargs, Hsfx. reflexivity.
Qed.

Lemma render_has_eight_line_feeds_witness :
  descriptors_free_of LF_char (of_descriptors acme write_probe) = true
  /\ count_char LF_char (render (of_descriptors acme write_probe)) = 8.
Proof.
  split; [reflexivity |].
  apply (render_has_eight_line_feeds (of_descriptors acme write_probe)).
  reflexivity.
Defined.

(** X4.  The suffix of the macro name tells the number of arguments: two
    argument lists get the same suffix only when they have the same
    length, the suffix is empty exactly for the empty list, and it is
    never ["0"]. *)
Theorem macro_suffix_identifies_arity (args1 args2 : list Argument.t) :
  (forall self : ProbeWrapper.t, exists before after : string,
     render self =
     before ++ "STAP_PROBE" ++ macro_suffix (Probe.args (probe self)) ++ "("
     ++ after)
  /\ (macro_suffix args1 = macro_suffix args2 ->
      List.length args1 = List.length args2)
  /\ (macro_suffix args1 = "" <-> args1 = [])
  /\ macro_suffix args1 <> "0".
Proof.
  split; [| split; [| split]].
  - intros self.
    exists ("void " ++ provider_name_with_hash self ++ "_"
            ++ Probe.name (probe self) ++ "(" ++ LF ++ "    "
            ++ comma_separated (Probe.args (probe self)) ++ LF ++ ") {"
            ++ LF ++ "    ").
    eexists. rewrite render_layout. unfold layout.
    rewrite !append_assoc. reflexivity.
  - unfold macro_suffix.
    destruct args1 as [|a1 r1], args2 as [|a2 r2]; cbn [List.length Nat.ltb Nat.leb];
      intros H.
    + reflexivity.
    + symmetry in H. now apply usize_to_string_nonempty in H.
    + now apply usize_to_string_nonempty in H.
    + now apply usize_to_string_inj in H.
  - split.
    + destruct args1 as [|a1 r1]; [reflexivity |].
      unfold macro_suffix. cbn [List.length Nat.ltb Nat.leb]. intros H.
      now apply usize_to_string_nonempty in H.
    + intros ->. reflexivity.
  - destruct args1 as [|a1 r1]; [discriminate |].
    unfold macro_suffix. cbn [List.length Nat.ltb Nat.leb]. intros H.
    change "0" with (usize_to_string 0) in H.
    apply usize_to_string_inj in H. discriminate H.
Qed.

Lemma macro_suffix_identifies_arity_witness :
  macro_suffix (Probe.args write_probe) =
  macro_suffix [Argument.mk "long" "a"; Argument.mk "long" "b"]
  /\ List.length (Probe.args write_probe) = 2.
Proof.
  assert (H : macro_suffix (Probe.args write_probe) =
              macro_suffix [Argument.mk "long" "a"; Argument.mk "long" "b"])
    by reflexivity.
  split; [exact H |].
  destruct (macro_suffix_identifies_arity (Probe.args write_probe)
              [Argument.mk "long" "a"; Argument.mk "long" "b"])
    as [_ [Hlen _]].
  exact (Hlen H).
Defined.

(** X5.  The function name is the provider's disambiguated name, an
    underscore and the probe name, with nothing to tell where one ends:
    a provider [nh_x] with probe [pn] and a provider [nh] with probe
    [x_pn], two different providers, get the same signature. *)
Theorem function_name_not_unique (nh x pn : string)
  (args : list Argument.t) :
  nh ++ "_" ++ x <> nh
  /\ signature_text (ProbeWrapper.mk (nh ++ "_" ++ x) (Probe.mk pn args)) =
     signature_text (ProbeWrapper.mk nh (Probe.mk (x ++ "_" ++ pn) args))
  /\ exists rest1 rest2 : string,
       render (ProbeWrapper.mk (nh ++ "_" ++ x) (Probe.mk pn args)) =
         "void "
         ++ signature_text (ProbeWrapper.mk nh (Probe.mk (x ++ "_" ++ pn) args))
         ++ rest1
       /\ render (ProbeWrapper.mk nh (Probe.mk (x ++ "_" ++ pn) args)) =
         "void "
         ++ signature_text (ProbeWrapper.mk nh (Probe.mk (x ++ "_" ++ pn) args))
         ++ rest2.
Proof.
  assert (Hsig :
    signature_text (ProbeWrapper.mk (nh ++ "_" ++ x) (Probe.mk pn args)) =
    signature_text (ProbeWrapper.mk nh (Probe.mk (x ++ "_" ++ pn) args))).
  { unfold signature_text.
    cbn [probe provider_name_with_hash Probe.name Probe.args].
    rewrite !append_assoc. reflexivity. }
  split; [| split; [exact Hsig |]].
  - intros H. apply (f_equal String.length) in H.
    rewrite !string_length_append in H. simpl in H. lia.
  - do 2 eexists. split.
    + rewrite render_parts, Hsig. reflexivity.
    + rewrite render_parts. reflexivity.
Qed.

(** * Further properties of the capability probe *)

(** X6.  A run of [main] stops short of its end only inside the library:
    it yields no exit status exactly when [providerInit] does not return,
    or returns a handle on which [providerDestroy] does not return.  When
    [providerInit] does not return nothing else happens, and in every run,
    finished or not, [providerInit] is called once and [providerDestroy]
    at most once. *)
Theorem main_stops_only_inside_library {S : Type} `{Libstapsdt S}
  (arc : Z) (argv : list string) (s : S) :
  (exit_status (main arc argv s) = None <->
   providerInit "foo" s = None
   \/ exists (p : SDTProvider_ptr) (s1 : S),
        providerInit "foo" s = Some (p, s1) /\ providerDestroy p s1 = None)
  /\ (providerInit "foo" s = None ->
      main arc argv s = ([providerInit_called "foo"], None))
  /\ List.length (filter is_init_call (trace (main arc argv s))) = 1
  /\ List.length (filter is_destroy_call (trace (main arc argv s))) <= 1.
Proof.
  rewrite main_run.
  destruct (providerInit "foo" s) as [[p s1]|] eqn:Hi;
    [destruct (providerDestroy p s1) as [s2|] eqn:Hd |];
    unfold exit_status; cbn [snd trace fst filter is_init_call is_destroy_call
                             List.length].
  - split; [| split; [discriminate | split; [reflexivity | lia]]].
    split; [discriminate |].
    intros [Hn | [p' [s1' [Heq Hn]]]]; [discriminate |].
    injection Heq as <- <-. rewrite Hd in Hn. discriminate.
  - split; [| split; [discriminate | split; [reflexivity | lia]]].
    split; [| reflexivity].
    intros _. right. exists p, s1. split; [reflexivity | exact Hd].
  - split; [| split; [reflexivity | split; [reflexivity | lia]]].
    split; [| reflexivity]. intros _. left. reflexivity.
Qed.

Lemma main_stops_only_inside_library_witness :
  @providerInit _ stuck_lib "foo" tt = None
  /\ @main _ stuck_lib 1%Z ["a"] tt = ([providerInit_called "foo"], None).
Proof.
  assert (Hi : @providerInit _ stuck_lib "foo" tt = None) by reflexivity.
  split; [exact Hi |].
  destruct (@main_stops_only_inside_library _ stuck_lib 1%Z ["a"] tt)
    as [_ [Hstuck _]].
  exact (Hstuck Hi).
Defined.
